(** * syncodec: the statistical codec

    A shallow embedding of [statistical_codec.go] (package [syncodec]) and the
    properties of its frame generator, bitrate state machine and scheduling
    loop.

    Conventions of the embedding.
    - Go's [int], [int64] and [time.Duration] are 64-bit two's-complement
      integers: values are in [Z] and every arithmetic operation wraps
      ([Int64.wrap]).
    - A panic of the Go runtime is the [Panic] outcome of [result].
    - [float64] is modelled by exact rational arithmetic extended with the
      two infinities and NaN ([F64.t]).  The conversion from an integer
      rounds to 53 significant bits as binary64 does; the other operations
      are exact on finite values (the rounding of binary64 products,
      differences and quotients is not modelled, and both zeros are one
      value).
    - [Binary64] evaluates the two places where the exact model and binary64
      could part, the nominal interval and the conversion of an integer, on
      the primitive floating-point numbers.
    - Pseudo-random draws and clock readings are inputs of the functions that
      consume them.
    - The mutex [targetBitrateLock] is not modelled: every method runs
      atomically. *)

From Stdlib Require Import ZArith QArith Qround Qabs List Bool Lia Lqa.
From Stdlib Require Import Reals Rpower Lra Qreals.
From Stdlib Require Import PrimFloat FloatOps SpecFloat Uint63.
Import ListNotations.

Open Scope Z_scope.

(** ** Outcomes *)

Inductive panic : Set :=
| IntegerDivideByZero     (* runtime error: integer divide by zero *)
| MakesliceLenOutOfRange  (* runtime error: makeslice: len out of range *)
| CloseOfClosedChannel    (* close of closed channel *)
| CloseOfNilChannel.      (* close of nil channel *)

Inductive result (A : Type) : Type :=
| Ok (a : A)
| Panic (p : panic).

Arguments Ok {A} a.
Arguments Panic {A} p.

Definition bind {A B : Type} (r : result A) (k : A -> result B) : result B :=
  match r with
  | Ok a => k a
  | Panic p => Panic p
  end.

Notation "x <- r ;; k" := (bind r (fun x => k))
  (at level 61, r at next level, right associativity).

(** ** 64-bit integers *)

Module Int64.

Definition min_int : Z := - 2 ^ 63.
Definition max_int : Z := 2 ^ 63 - 1.

Definition in_range (z : Z) : Prop := min_int <= z <= max_int.

Definition in_rangeb (z : Z) : bool := (min_int <=? z) && (z <=? max_int).

Definition wrap (z : Z) : Z := (z + 2 ^ 63) mod 2 ^ 64 - 2 ^ 63.

Definition add (x y : Z) : Z := wrap (x + y).
Definition sub (x y : Z) : Z := wrap (x - y).
Definition mul (x y : Z) : Z := wrap (x * y).

(** [x / y]: truncated towards zero; a zero divisor panics; the one
    overflowing quotient, [min_int / -1], wraps. *)
Definition div (x y : Z) : result Z :=
  if y =? 0 then Panic IntegerDivideByZero else Ok (wrap (Z.quot x y)).

End Int64.

(** ** float64 *)

Module F64.

Inductive t : Type :=
| Fin (q : Q)
| PInf
| NInf
| NaN.

(** Round an integer to 53 significant bits, ties to even: the value of the
    conversion [float64(z)]. *)
Definition round53 (z : Z) : Z :=
  let a := Z.abs z in
  let d := Z.log2 a - 52 in
  if d <=? 0 then z
  else
    let q := Z.shiftr a d in
    let r := a mod 2 ^ d in
    let half := 2 ^ (d - 1) in
    let q' := if (half <? r) || ((r =? half) && Z.odd q) then q + 1 else q in
    Z.sgn z * (q' * 2 ^ d).

Definition of_int (z : Z) : t := Fin (inject_Z (round53 z)).

Definition inf_of (c : comparison) : t :=
  match c with
  | Gt => PInf
  | Lt => NInf
  | Eq => NaN
  end.

Definition sub (x y : t) : t :=
  match x, y with
  | NaN, _ | _, NaN => NaN
  | Fin a, Fin b => Fin (a - b)
  | PInf, PInf | NInf, NInf => NaN
  | PInf, _ => PInf
  | NInf, _ => NInf
  | Fin _, PInf => NInf
  | Fin _, NInf => PInf
  end.

Definition mul (x y : t) : t :=
  match x, y with
  | NaN, _ | _, NaN => NaN
  | Fin a, Fin b => Fin (a * b)
  | Fin a, PInf | PInf, Fin a => inf_of (a ?= 0)%Q
  | Fin a, NInf | NInf, Fin a => inf_of (CompOpp (a ?= 0)%Q)
  | PInf, PInf | NInf, NInf => PInf
  | PInf, NInf | NInf, PInf => NInf
  end.

Definition div (x y : t) : t :=
  match x, y with
  | NaN, _ | _, NaN => NaN
  | Fin a, Fin b =>
      if Qeq_bool b 0 then inf_of (a ?= 0)%Q else Fin (a / b)
  | Fin _, PInf | Fin _, NInf => Fin 0
  | PInf, Fin b => match (b ?= 0)%Q with Lt => NInf | _ => PInf end
  | NInf, Fin b => match (b ?= 0)%Q with Lt => PInf | _ => NInf end
  | PInf, PInf | PInf, NInf | NInf, PInf | NInf, NInf => NaN
  end.

(** [math.Max]. *)
Definition Max (x y : t) : t :=
  match x, y with
  | PInf, _ | _, PInf => PInf
  | NaN, _ | _, NaN => NaN
  | NInf, _ => y
  | Fin _, NInf => x
  | Fin a, Fin b => if Qle_bool a b then y else x
  end.

(** Truncation towards zero. *)
Definition trunc (q : Q) : Z := Z.quot (Qnum q) (Zpos (Qden q)).

(** The conversion [int64(x)] of a value that int64 cannot represent (too
    large, an infinity or NaN) succeeds with a result that the language
    leaves to the implementation. *)
Class Arch : Type := nonrepresentable : t -> Z.

Definition to_int64 {arch : Arch} (x : t) : Z :=
  match x with
  | Fin q =>
      if Int64.in_rangeb (trunc q) then trunc q
      else Int64.wrap (nonrepresentable x)
  | _ => Int64.wrap (nonrepresentable x)
  end.


(** amd64: the "integer indefinite" value. *)
Definition amd64 : Arch := fun _ => Int64.min_int.

End F64.

(** ** Package [time] *)

Module Time.

(** [time.Duration]: an int64 count of nanoseconds. *)
Definition Duration : Set := Z.

Definition Nanosecond : Duration := 1.
Definition Millisecond : Duration := 1000000.

(** [time.Time]: an instant, as nanoseconds since the zero [Time]. *)
Definition Time : Set := Z.

Definition zero : Time := 0.

(** [t.Sub(u)]: the difference, saturating at the largest and smallest
    [Duration]. *)
Definition Sub (t u : Time) : Duration :=
  Z.max Int64.min_int (Z.min Int64.max_int (t - u)).

(** [time.Since(t)], with the clock reading [now]. *)
Definition Since (now t : Time) : Duration := Sub now t.

End Time.

(** ** The codec *)

(** Modelled from the spec: the [Frame] type is declared outside
    [statistical_codec.go]; a frame is its content bytes (opaque filler) and
    the duration it occupies. *)
Record Frame : Set := mkFrame {
  Content : list Byte.byte;
  Duration : Time.Duration
}.

(** [make([]byte, n)]: [n] zero bytes; a negative length panics.  Memory is
    not bounded. *)
Definition make (n : Z) : result (list Byte.byte) :=
  if n <? 0 then Panic MakesliceLenOutOfRange
  else Ok (repeat Byte.x00 (Z.to_nat n)).

(** The size of a frame, in bytes. *)
Definition size (f : Frame) : Z := Z.of_nat (length (Content f)).

Definition defaultTargetBitrateBps : Z := 100000000.
Definition defaultFPS : Z := 30.
Definition defaultTau : Time.Duration := 200 * Time.Millisecond.
Definition defaultBurstFrameCount : Z := 8.
Definition defaultBurstFrameSize : Z := 13500.
Definition defaultT0 : Time.Duration := 33 * Time.Millisecond.
Definition defaultB0 : Z := 4170.
Definition defaultScaleT : Q := 15 # 100.
Definition defaultScaleB : Q := 15 # 100.
Definition defaultRMin : Z := 150000.
Definition defaultRMax : Z := 150000000.

(** [laplaceNoise]: the scale; the random source is the draws that [noise]
    receives. *)
Record laplaceNoise : Set := mkLaplaceNoise {
  scale : Q
}.

(** A channel variable: nil, or made and open, or made and closed. *)
Inductive chan : Set :=
| ChanNil
| ChanOpen
| ChanClosed.

Record StatisticalCodec : Set := mkStatisticalCodec {
  targetBitrateBps : Z;
  fps : Z;
  tau : Time.Duration;
  burstFrameCount : Z;
  burstFrameSize : Z;
  t0 : Time.Duration;
  b0 : Z;
  scaleT : Q;
  scaleB : Q;
  rMin : Z;
  rMax : Z;
  (** the frames handed to the writer, oldest first *)
  writer : list Frame;
  (** the rates offered by the senders blocked on the unbuffered channel,
      oldest first *)
  targetBitrateChan : list Z;
  lastTargetBitrateUpdate : Time.Time;
  remainingBurstFrames : Z;
  frameSizeNoiser : laplaceNoise;
  frameDurationNoiser : laplaceNoise;
  done : chan
}.

Definition set_targetBitrateBps (r : Z) (c : StatisticalCodec) : StatisticalCodec :=
  mkStatisticalCodec r (fps c) (tau c) (burstFrameCount c) (burstFrameSize c)
    (t0 c) (b0 c) (scaleT c) (scaleB c) (rMin c) (rMax c) (writer c)
    (targetBitrateChan c) (lastTargetBitrateUpdate c) (remainingBurstFrames c)
    (frameSizeNoiser c) (frameDurationNoiser c) (done c).

Definition set_fps (n : Z) (c : StatisticalCodec) : StatisticalCodec :=
  mkStatisticalCodec (targetBitrateBps c) n (tau c) (burstFrameCount c)
    (burstFrameSize c) (t0 c) (b0 c) (scaleT c) (scaleB c) (rMin c) (rMax c)
    (writer c) (targetBitrateChan c) (lastTargetBitrateUpdate c)
    (remainingBurstFrames c) (frameSizeNoiser c) (frameDurationNoiser c)
    (done c).

Definition set_writer (w : list Frame) (c : StatisticalCodec) : StatisticalCodec :=
  mkStatisticalCodec (targetBitrateBps c) (fps c) (tau c) (burstFrameCount c)
    (burstFrameSize c) (t0 c) (b0 c) (scaleT c) (scaleB c) (rMin c) (rMax c)
    w (targetBitrateChan c) (lastTargetBitrateUpdate c)
    (remainingBurstFrames c) (frameSizeNoiser c) (frameDurationNoiser c)
    (done c).

Definition set_targetBitrateChan (q : list Z) (c : StatisticalCodec) : StatisticalCodec :=
  mkStatisticalCodec (targetBitrateBps c) (fps c) (tau c) (burstFrameCount c)
    (burstFrameSize c) (t0 c) (b0 c) (scaleT c) (scaleB c) (rMin c) (rMax c)
    (writer c) q (lastTargetBitrateUpdate c)
    (remainingBurstFrames c) (frameSizeNoiser c) (frameDurationNoiser c)
    (done c).

Definition set_lastTargetBitrateUpdate (t : Time.Time) (c : StatisticalCodec) : StatisticalCodec :=
  mkStatisticalCodec (targetBitrateBps c) (fps c) (tau c) (burstFrameCount c)
    (burstFrameSize c) (t0 c) (b0 c) (scaleT c) (scaleB c) (rMin c) (rMax c)
    (writer c) (targetBitrateChan c) t
    (remainingBurstFrames c) (frameSizeNoiser c) (frameDurationNoiser c)
    (done c).

Definition set_remainingBurstFrames (n : Z) (c : StatisticalCodec) : StatisticalCodec :=
  mkStatisticalCodec (targetBitrateBps c) (fps c) (tau c) (burstFrameCount c)
    (burstFrameSize c) (t0 c) (b0 c) (scaleT c) (scaleB c) (rMin c) (rMax c)
    (writer c) (targetBitrateChan c) (lastTargetBitrateUpdate c)
    n (frameSizeNoiser c) (frameDurationNoiser c)
    (done c).



(** [error]: no option of this file builds one. *)
Inductive error : Set :=
| OptionError.

(** [StatisticalCodecOption]: the codec as the option leaves it, or the
    error it returns (the constructor then drops the codec). *)
Definition StatisticalCodecOption : Set := StatisticalCodec -> error + StatisticalCodec.

Definition WithFramesPerSecond (n : Z) : StatisticalCodecOption :=
  fun sc => inr (set_fps n sc).

(** The codec as the composite literal of [NewStatisticalEncoder] builds it,
    for the writer [w]. *)
Definition initial (w : list Frame) : StatisticalCodec :=
  {| targetBitrateBps := defaultTargetBitrateBps;
     fps := defaultFPS;
     tau := defaultTau;
     burstFrameCount := defaultBurstFrameCount;
     burstFrameSize := defaultBurstFrameSize;
     t0 := defaultT0;
     b0 := defaultB0;
     scaleT := defaultScaleT;
     scaleB := defaultScaleB;
     rMin := defaultRMin;
     rMax := defaultRMax;
     writer := w;
     targetBitrateChan := [];
     lastTargetBitrateUpdate := Time.zero;
     remainingBurstFrames := 0;
     frameSizeNoiser := {| scale := defaultScaleB |};
     frameDurationNoiser := {| scale := defaultScaleT |};
     done := ChanOpen |}.

Fixpoint apply_opts (opts : list StatisticalCodecOption) (sc : StatisticalCodec)
  : error + StatisticalCodec :=
  match opts with
  | [] => inr sc
  | opt :: rest =>
      match opt sc with
      | inl err => inl err
      | inr sc' => apply_opts rest sc'
      end
  end.

(** [NewStatisticalEncoder]: [inr sc] is the pair [(sc, nil)], [inl err] the
    pair [(nil, err)]. *)
Definition NewStatisticalEncoder (w : list Frame) (opts : list StatisticalCodecOption)
  : error + StatisticalCodec :=
  apply_opts opts (initial w).

Definition GetTargetBitrate (c : StatisticalCodec) : Z := targetBitrateBps c.

Definition SetTargetBitrate (r : Z) (c : StatisticalCodec) : StatisticalCodec :=
  set_targetBitrateBps r c.

Section NextFrame.

Context {arch : F64.Arch}.

(** [time.Duration((1.0/float64(c.fps))*1000.0) * time.Millisecond] *)
Definition frameDuration (c : StatisticalCodec) : Time.Duration :=
  Int64.mul
    (F64.to_int64
       (F64.mul (F64.div (F64.Fin 1) (F64.of_int (fps c))) (F64.Fin 1000)))
    Time.Millisecond.

(** [nextFrame], with the values that the calls of the two noisers
    return. *)
Definition nextFrame (c : StatisticalCodec) (sizeNoise durationNoise : F64.t)
  : result Frame :=
  let duration := frameDuration c in
  if remainingBurstFrames c =? burstFrameCount c then
    content <- make (burstFrameSize c) ;;
    Ok {| Content := content; Duration := duration |}
  else
    bytesPerFrame <- Int64.div (targetBitrateBps c) (Int64.mul 8 (fps c)) ;;
    if 0 <? remainingBurstFrames c then
      size <- Int64.div
                (Int64.mul (targetBitrateBps c) (burstFrameCount c))
                (Int64.add (burstFrameSize c)
                           (Int64.sub (burstFrameCount c) 1)) ;;
      content <- make size ;;
      Ok {| Content := content; Duration := duration |}
    else
      let noisedBytesPerFrame :=
        F64.Max (F64.Fin 1)
          (F64.mul (F64.of_int bytesPerFrame)
                   (F64.sub (F64.Fin 1) sizeNoise)) in
      let noisedDuration :=
        F64.Max (F64.Fin 0)
          (F64.mul (F64.of_int duration)
                   (F64.sub (F64.Fin 1) durationNoise)) in
      content <- make (F64.to_int64 noisedBytesPerFrame) ;;
      Ok {| Content := content;
            Duration := F64.to_int64 noisedDuration |}.

End NextFrame.


(** ** The Laplace noise *)

Module Laplace.

Local Open Scope R_scope.

(** [laplaceNoise.noise], read over the real numbers: [u1] and [u2] are the
    two values that [l.rnd.Float64()] returns, in this order. *)
Definition noise (l : laplaceNoise) (u1 u2 : R) : R :=
  let e1 := - Q2R (scale l) * ln u1 in
  let e2 := - Q2R (scale l) * ln u2 in
  e1 - e2.


End Laplace.

(** ** Close and the loop of Start *)


(** The case that [select] takes in one iteration of the loop, with the
    inputs its body reads. *)
Inductive event : Type :=
| TimerC (sizeNoise durationNoise : F64.t)
    (* <-timer.C; the values the noisers return in nextFrame *)
| TargetBitrateChan (now now' : Time.Time)
    (* rate := <-c.targetBitrateChan; the clock at time.Since and at
       time.Now *)
| DoneChan.
    (* <-c.done *)

(** The loop's variables: the codec and the duration the timer is armed
    for. *)
Record loop : Type := mkLoop {
  codec : StatisticalCodec;
  timer : Time.Duration
}.

Inductive outcome : Type :=
| Continue (s : loop)   (* the loop goes on to its next iteration *)
| Return (s : loop)     (* Start returns *)
| Panics (p : panic)
| NotReady.             (* the case cannot proceed: select does not take it *)

(** A case of the [select] can proceed: the timer has fired (the clock is
    the environment's), a sender waits on the rate channel, the done channel
    is closed. *)
Definition ready (ev : event) (s : loop) : bool :=
  match ev with
  | TimerC _ _ => true
  | TargetBitrateChan _ _ =>
      match targetBitrateChan (codec s) with
      | [] => false
      | _ :: _ => true
      end
  | DoneChan =>
      match done (codec s) with
      | ChanClosed => true
      | _ => false
      end
  end.

Section Start.

Context {arch : F64.Arch}.

(** The body of the rate case, for the received [rate]. *)
Definition update (now now' : Time.Time) (rate : Z) (c : StatisticalCodec)
  : StatisticalCodec :=
  if Time.Since now (lastTargetBitrateUpdate c) <? tau c then c
  else
    set_remainingBurstFrames (burstFrameCount c)
      (set_lastTargetBitrateUpdate now'
         (set_targetBitrateBps rate c)).

(** One iteration of the [for] loop of [Start] in which [select] takes the
    case [ev]. *)
Definition iteration (ev : event) (s : loop) : outcome :=
  let c := codec s in
  match ev with
  | TimerC sizeNoise durationNoise =>
      match nextFrame c sizeNoise durationNoise with
      | Panic p => Panics p
      | Ok frame =>
          Continue {| codec := set_writer (writer c ++ [frame]) c;
                      timer := Duration frame |}
      end
  | TargetBitrateChan now now' =>
      match targetBitrateChan c with
      | [] => NotReady
      | rate :: waiting =>
          Continue {| codec := update now now' rate
                                 (set_targetBitrateChan waiting c);
                      timer := timer s |}
      end
  | DoneChan =>
      match done c with
      | ChanClosed => Return s
      | _ => NotReady
      end
  end.

(** The loop, for the cases that [select] takes in turn. *)
Fixpoint run (evs : list event) (s : loop) : outcome :=
  match evs with
  | [] => Continue s
  | ev :: rest =>
      match iteration ev s with
      | Continue s' => run rest s'
      | o => o
      end
  end.

(** [Start]: the timer is armed for [t0], then the loop runs. *)
Definition Start (c : StatisticalCodec) (evs : list event) : outcome :=
  run evs {| codec := c; timer := t0 c |}.

End Start.

(** The loop's variables at the end of a run that did not panic. *)
Definition state_of (o : outcome) (otherwise : loop) : loop :=
  match o with
  | Continue s | Return s => s
  | Panics _ | NotReady => otherwise
  end.

(** A codec at 48000 bit/s on which a sender offers the rate 24000, and a
    short run of its loop: a frame, the rate received at a clock reading of
    the year 2026, a second frame. *)
Definition offered_codec : StatisticalCodec :=
  set_targetBitrateChan [24000] (SetTargetBitrate 48000 (initial [])).

Definition short_run : list event :=
  [TimerC (F64.Fin 0) (F64.Fin 0);
   TargetBitrateChan 63900000000000000000 63900000000000000001;
   TimerC (F64.Fin 0) (F64.Fin 0)].

(** The case is the timer's. *)
Definition is_timer (ev : event) : bool :=
  match ev with
  | TimerC _ _ => true
  | _ => false
  end.

(** ** binary64 *)

(** The nominal interval evaluated in IEEE binary64, on the primitive
    floating-point numbers: every operation rounds to nearest, ties to
    even. *)
Module Binary64.

(** [float64(z)], for an int64 [z]. *)
Definition of_int (z : Z) : float :=
  if z <? 0 then PrimFloat.opp (PrimFloat.of_uint63 (Uint63.of_Z (- z)))
  else PrimFloat.of_uint63 (Uint63.of_Z z).

(** The truncation towards zero of a finite number. *)
Definition trunc (x : float) : option Z :=
  match Prim2SF x with
  | S754_zero _ => Some 0
  | S754_finite sign m e =>
      let v := if 0 <=? e then Z.pos m * 2 ^ e else Z.pos m / 2 ^ (- e) in
      Some (if sign then - v else v)
  | S754_infinity _ | S754_nan => None
  end.

(** [(1.0/float64(fps))*1000.0], truncated. *)
Definition frame_ms (fps : Z) : option Z :=
  trunc (PrimFloat.mul (PrimFloat.div 1%float (of_int fps)) 1000%float).

(** The binary64 value and the integer quotient agree at [n] and at
    [- n]. *)
Definition agrees (n : Z) : bool :=
  match frame_ms n, frame_ms (- n) with
  | Some p, Some q => (p =? Z.quot 1000 n) && (q =? Z.quot 1000 (- n))
  | _, _ => false
  end.

(** They agree at the [k] integers from [n] on. *)
Fixpoint agrees_from (k : nat) (n : Z) : bool :=
  match k with
  | O => true
  | S k' => agrees n && agrees_from k' (n + 1)
  end.

(** [float64(n)] in binary64 is [F64.round53 n]. *)
Definition conversion_agrees (n : Z) : bool :=
  match trunc (of_int n), trunc (of_int (- n)) with
  | Some p, Some q => (p =? F64.round53 n) && (q =? F64.round53 (- n))
  | _, _ => false
  end.

Fixpoint conversion_agrees_from (k : nat) (n : Z) : bool :=
  match k with
  | O => true
  | S k' => conversion_agrees n && conversion_agrees_from k' (n + 1)
  end.

End Binary64.

(** * Properties *)

(** ** Integers *)

Lemma wrap_in_range (z : Z) : Int64.in_range z -> Int64.wrap z = z.
Proof.
  unfold Int64.in_range, Int64.min_int, Int64.max_int, Int64.wrap.
  intros H. rewrite Z.mod_small; lia.
Qed.

Lemma in_rangeb_spec (z : Z) : Int64.in_rangeb z = true <-> Int64.in_range z.
Proof.
  unfold Int64.in_rangeb, Int64.in_range.
  rewrite andb_true_iff, !Z.leb_le. tauto.
Qed.



(** ** Rationals and float64 *)

Lemma trunc_comp (p q : Q) : (p == q)%Q -> F64.trunc p = F64.trunc q.
Proof.
  destruct p as [a b], q as [c d]. unfold Qeq, F64.trunc. simpl. intros H.
  rewrite <- (Z.quot_mul_cancel_r a (Zpos b) (Zpos d)) by lia.
  rewrite <- (Z.quot_mul_cancel_r c (Zpos d) (Zpos b)) by lia.
  rewrite H. f_equal. lia.
Qed.

Lemma trunc_inject_Z (z : Z) : F64.trunc (inject_Z z) = z.
Proof. unfold F64.trunc. simpl. apply Z.quot_1_r. Qed.

Lemma trunc_quot (a n : Z) :
  n <> 0 -> F64.trunc (inject_Z a / inject_Z n) = Z.quot a n.
Proof.
  intros Hn. destruct n as [|p|p]; [lia| |].
  - rewrite (trunc_comp _ (a # p)).
    + reflexivity.
    + unfold Qdiv, Qinv, Qmult, Qeq, inject_Z. simpl. lia.
  - rewrite (trunc_comp _ (- a # p)).
    + unfold F64.trunc. simpl.
      change (Z.neg p) with (- Z.pos p).
      rewrite Z.quot_opp_l, Z.quot_opp_r by lia. reflexivity.
    + unfold Qdiv, Qinv, Qmult, Qeq, inject_Z. simpl. lia.
Qed.


Lemma round53_small (z : Z) : Z.abs z <= 2 ^ 53 -> F64.round53 z = z.
Proof.
  intros H.
  destruct (Z.eq_dec z (2 ^ 53)) as [->|Hp]; [reflexivity|].
  destruct (Z.eq_dec z (- 2 ^ 53)) as [->|Hn]; [reflexivity|].
  unfold F64.round53.
  destruct (Z.leb_spec (Z.log2 (Z.abs z) - 52) 0) as [_|Hd]; [reflexivity|].
  exfalso.
  assert (Hlt : Z.abs z < 2 ^ 53) by lia.
  assert (Hpos : 0 < Z.abs z).
  { destruct (Z.eq_dec (Z.abs z) 0) as [E0|E0]; [|lia].
    rewrite E0 in Hd. simpl in Hd. lia. }
  apply Z.log2_lt_pow2 in Hlt; lia.
Qed.

Lemma round53_large (z : Z) : 2 ^ 53 < Z.abs z -> 2 ^ 53 <= Z.abs (F64.round53 z).
Proof.
  intros H. unfold F64.round53.
  set (a := Z.abs z) in *.
  assert (Hl : 53 <= Z.log2 a) by (apply Z.log2_le_pow2; lia).
  destruct (Z.leb_spec (Z.log2 a - 52) 0) as [Hd|Hd]; [lia|].
  set (d := Z.log2 a - 52) in *.
  cbv zeta.
  set (q := Z.shiftr a d).
  match goal with
  | |- context [if ?b then q + 1 else q] => set (q' := if b then q + 1 else q)
  end.
  assert (Hq : 2 ^ 52 <= q).
  { unfold q. rewrite Z.shiftr_div_pow2 by lia.
    apply Z.div_le_lower_bound; [lia|].
    rewrite <- Z.pow_add_r by lia.
    replace (d + 52) with (Z.log2 a) by lia.
    apply Z.log2_spec. lia. }
  assert (Hq' : q <= q') by (unfold q'; match goal with |- context [if ?b then _ else _] => destruct b end; lia).
  assert (Hp : 2 <= 2 ^ d).
  { change 2 with (2 ^ 1) at 1. apply Z.pow_le_mono_r; lia. }
  assert (Hs : Z.abs (Z.sgn z) = 1) by (unfold a in H; lia).
  rewrite Z.abs_mul, Hs.
  rewrite Z.abs_eq by nia. nia.
Qed.

Lemma round53_sgn (z : Z) : Z.sgn (F64.round53 z) = Z.sgn z.
Proof.
  unfold F64.round53.
  destruct (Z.leb_spec (Z.log2 (Z.abs z) - 52) 0) as [Hd|Hd]; [reflexivity|].
  cbv zeta.
  set (d := Z.log2 (Z.abs z) - 52) in *.
  set (q := Z.shiftr (Z.abs z) d).
  match goal with
  | |- context [if ?b then q + 1 else q] => set (q' := if b then q + 1 else q)
  end.
  assert (Hz : 0 < Z.abs z).
  { destruct (Z.eq_dec (Z.abs z) 0) as [E|E]; [|lia].
    unfold d in Hd. rewrite E in Hd. simpl in Hd. lia. }
  assert (Hq : 0 < q).
  { unfold q. rewrite Z.shiftr_div_pow2 by lia.
    apply Z.div_str_pos. split; [lia|].
    apply Z.le_trans with (2 ^ Z.log2 (Z.abs z)).
    - apply Z.pow_le_mono_r; lia.
    - apply Z.log2_spec. lia. }
  assert (Hq' : 0 < q') by (unfold q'; match goal with |- context [if ?b then _ else _] => destruct b end; lia).
  assert (0 < q' * 2 ^ d) by (apply Z.mul_pos_pos; lia).
  rewrite Z.sgn_mul, Z.sgn_sgn. rewrite (Z.sgn_pos (q' * 2 ^ d)); lia.
Qed.

(** The nominal interval in milliseconds is the truncated quotient
    [1000 / fps]. *)
Lemma nominal_ms (n : Z) :
  n <> 0 ->
  F64.trunc (1 / inject_Z (F64.round53 n) * inject_Z 1000) = Z.quot 1000 n.
Proof.
  intros Hn.
  assert (Hr : F64.round53 n <> 0).
  { intros E. pose proof (round53_sgn n) as S. rewrite E in S. simpl in S. lia. }
  rewrite (trunc_comp _ (inject_Z 1000 / inject_Z (F64.round53 n))).
  2:{ field. intros E. apply Hr.
      unfold Qeq, inject_Z in E. simpl in E. lia. }
  rewrite trunc_quot by assumption.
  destruct (Z.le_gt_cases (Z.abs n) (2 ^ 53)) as [Hs|Hl].
  - now rewrite round53_small.
  - pose proof (round53_large n Hl) as Hb.
    pose proof (round53_sgn n) as Hsg.
    assert (E1 : Z.quot 1000 n = 0).
    { destruct (Z.le_gt_cases 0 n).
      - apply Z.quot_small. lia.
      - replace n with (- - n) by lia. rewrite Z.quot_opp_r by lia.
        rewrite Z.quot_small; lia. }
    rewrite E1.
    destruct (Z.le_gt_cases 0 (F64.round53 n)).
    + apply Z.quot_small. lia.
    + replace (F64.round53 n) with (- - F64.round53 n) by lia.
      rewrite Z.quot_opp_r by lia. rewrite Z.quot_small; lia.
Qed.

Lemma quot_1000_bound (n : Z) : - 1000 <= Z.quot 1000 n <= 1000.
Proof.
  destruct (Z.eq_dec n 0) as [->|Hn].
  - cbv. split; discriminate.
  - destruct (Z.le_gt_cases 0 n).
    + rewrite Z.quot_div_nonneg by lia.
      pose proof (Z.div_pos 1000 n ltac:(lia) ltac:(lia)).
      pose proof (Z.div_le_upper_bound 1000 n 1000 ltac:(lia) ltac:(nia)). lia.
    + replace n with (- - n) by lia. rewrite Z.quot_opp_r by lia.
      rewrite Z.quot_div_nonneg by lia.
      pose proof (Z.div_pos 1000 (- n) ltac:(lia) ltac:(lia)).
      pose proof (Z.div_le_upper_bound 1000 (- n) 1000 ltac:(lia) ltac:(nia)).
      lia.
Qed.

Section FrameDuration.

Context {arch : F64.Arch}.

Lemma frameDuration_nominal (c : StatisticalCodec) :
  fps c <> 0 ->
  frameDuration c = Z.quot 1000 (fps c) * Time.Millisecond.
Proof.
  intros Hn. unfold frameDuration, F64.of_int, F64.div.
  assert (Hr : F64.round53 (fps c) <> 0).
  { intros E. pose proof (round53_sgn (fps c)) as S. rewrite E in S.
    simpl in S. lia. }
  assert (Hb : Qeq_bool (inject_Z (F64.round53 (fps c))) 0 = false).
  { apply not_true_is_false. intros E. apply Qeq_bool_eq in E.
    unfold Qeq, inject_Z in E. simpl in E. lia. }
  rewrite Hb. unfold F64.mul, F64.to_int64.
  change 1000%Q with (inject_Z 1000).
  rewrite nominal_ms by assumption.
  pose proof (quot_1000_bound (fps c)) as B.
  assert (R : Int64.in_rangeb (Z.quot 1000 (fps c)) = true).
  { apply in_rangeb_spec. unfold Int64.in_range, Int64.min_int, Int64.max_int. lia. }
  rewrite R. unfold Int64.mul. apply wrap_in_range.
  unfold Int64.in_range, Int64.min_int, Int64.max_int, Time.Millisecond. lia.
Qed.

End FrameDuration.

(** ** The frame generator *)

Lemma make_nonneg (n : Z) :
  0 <= n -> make n = Ok (repeat Byte.x00 (Z.to_nat n)).
Proof.
  intros H. unfold make. destruct (Z.ltb_spec n 0); [lia|reflexivity].
Qed.


Section Generator.

Context {arch : F64.Arch}.

(** Outside the burst-start branch the division of line 172 comes first: a
    divisor [8 * fps] that is zero panics, whatever the other fields are. *)
Lemma nextFrame_zero_divisor (c : StatisticalCodec) (sizeNoise durationNoise : F64.t) :
  remainingBurstFrames c <> burstFrameCount c ->
  Int64.mul 8 (fps c) = 0 ->
  nextFrame c sizeNoise durationNoise = Panic IntegerDivideByZero.
Proof.
  intros Hb Hz. unfold nextFrame.
  destruct (Z.eqb_spec (remainingBurstFrames c) (burstFrameCount c));
    [contradiction|].
  unfold Int64.div. rewrite Hz. reflexivity.
Qed.

(** C9: [NewStatisticalEncoder(w, WithFramesPerSecond(n))] returns a codec
    and the nil error for every integer [n], zero and negative ones
    included; the codec built with [n = 0] is in the steady state, and there
    [nextFrame] panics with an integer division by zero, for every value of
    the noisers. *)
Theorem NewStatisticalEncoder_accepts_any_fps (w : list Frame) (n : Z) :
  (exists sc, NewStatisticalEncoder w [WithFramesPerSecond n] = inr sc
              /\ fps sc = n)
  /\ (exists sc0, NewStatisticalEncoder w [WithFramesPerSecond 0] = inr sc0
                  /\ remainingBurstFrames sc0 = 0
                  /\ forall sizeNoise durationNoise,
                       nextFrame sc0 sizeNoise durationNoise
                       = Panic IntegerDivideByZero).
Proof.
  split.
  - exists (set_fps n (initial w)). split; reflexivity.
  - exists (set_fps 0 (initial w)). split; [reflexivity|].
    split; [reflexivity|].
    intros sN dN. apply nextFrame_zero_divisor; [discriminate|reflexivity].
Qed.

(** The burst-start branch: the frame has [burstFrameSize] zero bytes and the
    nominal duration; the noisers are not consulted. *)
Lemma nextFrame_burst_start (c : StatisticalCodec) (sizeNoise durationNoise : F64.t) :
  remainingBurstFrames c = burstFrameCount c ->
  0 <= burstFrameSize c ->
  nextFrame c sizeNoise durationNoise
  = Ok {| Content := repeat Byte.x00 (Z.to_nat (burstFrameSize c));
          Duration := frameDuration c |}.
Proof.
  intros Hb Hs. unfold nextFrame. rewrite Hb, Z.eqb_refl.
  rewrite make_nonneg by assumption. reflexivity.
Qed.

Lemma update_accepted (now now' : Time.Time) (rate : Z) (c : StatisticalCodec) :
  tau c <= Time.Since now (lastTargetBitrateUpdate c) ->
  update now now' rate c
  = set_remainingBurstFrames (burstFrameCount c)
      (set_lastTargetBitrateUpdate now' (set_targetBitrateBps rate c)).
Proof.
  intros H. unfold update.
  destruct (Z.ltb_spec (Time.Since now (lastTargetBitrateUpdate c)) (tau c));
    [lia|reflexivity].
Qed.

Lemma update_dropped (now now' : Time.Time) (rate : Z) (c : StatisticalCodec) :
  Time.Since now (lastTargetBitrateUpdate c) < tau c ->
  update now now' rate c = c.
Proof.
  intros H. unfold update.
  destruct (Z.ltb_spec (Time.Since now (lastTargetBitrateUpdate c)) (tau c));
    [reflexivity|lia].
Qed.




End Generator.

(** ** The steady state *)

Section Floors.

Context {arch : F64.Arch}.

Lemma to_int64_representable (q : Q) :
  Int64.in_range (F64.trunc q) -> F64.to_int64 (F64.Fin q) = F64.trunc q.
Proof.
  intros H. unfold F64.to_int64.
  apply in_rangeb_spec in H. now rewrite H.
Qed.


(** The steady-state branch, unfolded. *)
Lemma nextFrame_steady (c : StatisticalCodec) (sizeNoise durationNoise : F64.t) :
  remainingBurstFrames c <> burstFrameCount c ->
  remainingBurstFrames c <= 0 ->
  Int64.mul 8 (fps c) <> 0 ->
  nextFrame c sizeNoise durationNoise
  = (content <-
       make (F64.to_int64
               (F64.Max (F64.Fin 1)
                  (F64.mul
                     (F64.of_int
                        (Int64.wrap
                           (Z.quot (targetBitrateBps c) (Int64.mul 8 (fps c)))))
                     (F64.sub (F64.Fin 1) sizeNoise)))) ;;
     Ok {| Content := content;
           Duration :=
             F64.to_int64
               (F64.Max (F64.Fin 0)
                  (F64.mul (F64.of_int (frameDuration c))
                     (F64.sub (F64.Fin 1) durationNoise))) |}).
Proof.
  intros Hb Hr Hd. unfold nextFrame.
  destruct (Z.eqb_spec (remainingBurstFrames c) (burstFrameCount c));
    [contradiction|].
  unfold Int64.div. destruct (Z.eqb_spec (Int64.mul 8 (fps c)) 0);
    [contradiction|].
  cbn [bind]. destruct (Z.ltb_spec 0 (remainingBurstFrames c)); [lia|].
  reflexivity.
Qed.


End Floors.

(** ** The Laplace noise *)




Section SteadyState.

Context {arch : F64.Arch}.



End SteadyState.



(** ** Floors of the generated frame *)

Section FloorsAllBranches.

Context {arch : F64.Arch}.


End FloorsAllBranches.



(** ** The Laplace sampler *)

Lemma noise_difference (l : laplaceNoise) (u1 u2 : R) :
  Laplace.noise l u1 u2 = (Q2R (scale l) * (ln u2 - ln u1))%R.
Proof. unfold Laplace.noise. ring. Qed.




(** ** SetTargetBitrate, the rate case and Close *)

(** C1 (the code at the failing input): [SetTargetBitrate] reads no clock
    and writes the field: of two calls, however close in time, the second
    one's value is what [GetTargetBitrate] returns, while the time of the
    last accepted update, the burst counter and the rate channel stay as
    they were. *)
Theorem SetTargetBitrate_twice (c : StatisticalCodec) (r1 r2 : Z) :
  GetTargetBitrate (SetTargetBitrate r2 (SetTargetBitrate r1 c)) = r2
  /\ lastTargetBitrateUpdate (SetTargetBitrate r2 (SetTargetBitrate r1 c))
     = lastTargetBitrateUpdate c
  /\ remainingBurstFrames (SetTargetBitrate r2 (SetTargetBitrate r1 c))
     = remainingBurstFrames c
  /\ targetBitrateChan (SetTargetBitrate r2 (SetTargetBitrate r1 c))
     = targetBitrateChan c.
Proof. repeat split. Qed.

(** C2 (the code at the failing input): [SetTargetBitrate(r)] stores [r] in
    [targetBitrateBps] itself and sends nothing: the rate channel is as
    before, so the rate case of the loop is ready after the call exactly
    when it was before. *)
Theorem SetTargetBitrate_writes_field (c : StatisticalCodec) (r : Z) (t : Time.Duration)
  (now now' : Time.Time) :
  targetBitrateBps (SetTargetBitrate r c) = r
  /\ targetBitrateChan (SetTargetBitrate r c) = targetBitrateChan c
  /\ ready (TargetBitrateChan now now')
       {| codec := SetTargetBitrate r c; timer := t |}
     = ready (TargetBitrateChan now now') {| codec := c; timer := t |}.
Proof. repeat split. Qed.

Section Loop.

Context {arch : F64.Arch}.

(** No iteration of the loop changes the configuration, and the burst
    counter is only ever set to the burst frame count. *)
Lemma iteration_remainingBurstFrames (ev : event) (s s' : loop) :
  iteration ev s = Continue s' \/ iteration ev s = Return s' ->
  burstFrameCount (codec s') = burstFrameCount (codec s)
  /\ (remainingBurstFrames (codec s') = remainingBurstFrames (codec s)
      \/ remainingBurstFrames (codec s') = burstFrameCount (codec s)).
Proof.
  unfold iteration. destruct ev as [sN dN|now now'|].
  - destruct (nextFrame (codec s) sN dN); intros [H|H]; inversion H; subst;
      cbn; auto.
  - destruct (targetBitrateChan (codec s)) as [|rate waiting];
      intros [H|H]; inversion H; subst; cbn [codec].
    unfold update.
    destruct (Time.Since now _ <? _); cbn; auto.
  - destruct (done (codec s)); intros [H|H]; inversion H; subst; auto.
Qed.

Lemma remainingBurstFrames_stays (evs : list event) (s s' : loop) :
  remainingBurstFrames (codec s) = burstFrameCount (codec s) ->
  run evs s = Continue s' \/ run evs s = Return s' ->
  remainingBurstFrames (codec s') = burstFrameCount (codec s)
  /\ burstFrameCount (codec s') = burstFrameCount (codec s).
Proof.
  revert s. induction evs as [|ev rest IH]; intros s Hb H.
  - cbn in H. destruct H as [H|H]; inversion H; subst. auto.
  - cbn [run] in H. destruct (iteration ev s) as [s1| s1 | p |] eqn:E.
    + destruct (iteration_remainingBurstFrames ev s s1 (or_introl E)) as [Hc Hr].
      assert (Hb1 : remainingBurstFrames (codec s1) = burstFrameCount (codec s1))
        by (destruct Hr; congruence).
      destruct (IH s1 Hb1 H) as [A B]. split; congruence.
    + destruct H as [H|H]; inversion H; subst.
      destruct (iteration_remainingBurstFrames ev s s' (or_intror E)) as [Hc Hr].
      split; [destruct Hr; congruence|assumption].
    + destruct H as [H|H]; discriminate H.
    + destruct H as [H|H]; discriminate H.
Qed.

(** C3 (the code at the failing input): once the burst counter equals the
    burst frame count (an accepted update has just set it), it stays there
    through every further run of the loop: no case decrements it, and every
    later frame is generated by the burst-start branch. *)
Theorem remainingBurstFrames_never_decrements (evs : list event) (s s' : loop) :
  remainingBurstFrames (codec s) = burstFrameCount (codec s) ->
  run evs s = Continue s' \/ run evs s = Return s' ->
  remainingBurstFrames (codec s') = burstFrameCount (codec s)
  /\ burstFrameCount (codec s') = burstFrameCount (codec s).
Proof. apply remainingBurstFrames_stays. Qed.


End Loop.

Lemma remainingBurstFrames_never_decrements_witness :
  remainingBurstFrames
    (update 63900000000000000000 63900000000000000000 500000 (initial []))
  = 8
  /\ burstFrameCount
       (update 63900000000000000000 63900000000000000000 500000 (initial []))
     = 8.
Proof.
  apply (remainingBurstFrames_never_decrements (arch := F64.amd64)
           [TimerC (F64.Fin 0) (F64.Fin 0); TimerC (F64.Fin 0) (F64.Fin 0)]
           {| codec := update 63900000000000000000 63900000000000000000
                         500000 (initial []);
              timer := defaultT0 |}
           {| codec := set_writer
                         [ {| Content := repeat Byte.x00 (Z.to_nat 13500);
                              Duration := 33000000 |};
                           {| Content := repeat Byte.x00 (Z.to_nat 13500);
                              Duration := 33000000 |} ]
                         (update 63900000000000000000 63900000000000000000
                            500000 (initial []));
              timer := 33000000 |}).
  - reflexivity.
  - left. reflexivity.
Defined.




(** ** The rate case of the loop *)

Section RateCase.

Context {arch : F64.Arch}.

Lemma iteration_rate_dropped
  (s : loop) (rate : Z) (waiting : list Z) (now now' : Time.Time) :
  targetBitrateChan (codec s) = rate :: waiting ->
  Time.Since now (lastTargetBitrateUpdate (codec s)) < tau (codec s) ->
  iteration (TargetBitrateChan now now') s
  = Continue {| codec := set_targetBitrateChan waiting (codec s);
                timer := timer s |}.
Proof.
  intros Hq Hlt. unfold iteration. rewrite Hq.
  rewrite update_dropped by (cbn; exact Hlt). reflexivity.
Qed.

(** X1: a rate received less than [tau] after the last accepted update is
    consumed from the channel and dropped: the bitrate, the time stamp, the
    burst counter, the writer and the timer stay as they were. *)
Theorem rate_case_drops_within_tau
  (s : loop) (rate : Z) (waiting : list Z) (now now' : Time.Time) :
  targetBitrateChan (codec s) = rate :: waiting ->
  Time.Since now (lastTargetBitrateUpdate (codec s)) < tau (codec s) ->
  iteration (TargetBitrateChan now now') s
  = Continue {| codec := set_targetBitrateChan waiting (codec s);
                timer := timer s |}.
Proof. apply iteration_rate_dropped. Qed.

Lemma Since_zero_saturates (now : Time.Time) :
  Int64.max_int <= now -> Time.Since now Time.zero = Int64.max_int.
Proof.
  intros H. unfold Time.Since, Time.Sub, Time.zero.
  unfold Int64.max_int, Int64.min_int in *. lia.
Qed.

(** X2: a codec that has accepted no update yet carries the zero time: from
    2^63 - 1 ns after it (the year 293) on, [time.Since] saturates at the
    largest duration, so the first rate received is accepted whatever [tau]
    is: it becomes the target bitrate, unclamped, the second clock reading
    becomes the time stamp and the burst counter is set to the burst frame
    count. *)
Theorem first_rate_is_accepted
  (s : loop) (rate : Z) (waiting : list Z) (now now' : Time.Time) :
  targetBitrateChan (codec s) = rate :: waiting ->
  lastTargetBitrateUpdate (codec s) = Time.zero ->
  tau (codec s) <= Int64.max_int ->
  Int64.max_int <= now ->
  exists s' : loop,
    iteration (TargetBitrateChan now now') s = Continue s'
    /\ GetTargetBitrate (codec s') = rate
    /\ lastTargetBitrateUpdate (codec s') = now'
    /\ remainingBurstFrames (codec s') = burstFrameCount (codec s)
    /\ targetBitrateChan (codec s') = waiting
    /\ writer (codec s') = writer (codec s)
    /\ timer s' = timer s.
Proof.
  intros Hq Hz Htau Hnow. unfold iteration. rewrite Hq.
  rewrite update_accepted.
  - eexists. split; [reflexivity|]. cbn. repeat split.
  - cbn. rewrite Hz, Since_zero_saturates by assumption. exact Htau.
Qed.

(** X3: of two rates received in a row, the second less than [tau] after the
    first was accepted, only the first is applied: after both iterations the
    target bitrate is the first rate and the time stamp is that of the
    first. *)
Theorem second_rate_within_tau_is_dropped
  (s : loop) (r1 r2 : Z) (waiting : list Z) (now1 now1' now2 now2' : Time.Time) :
  targetBitrateChan (codec s) = r1 :: r2 :: waiting ->
  tau (codec s) <= Time.Since now1 (lastTargetBitrateUpdate (codec s)) ->
  Time.Since now2 now1' < tau (codec s) ->
  exists s' : loop,
    run [TargetBitrateChan now1 now1'; TargetBitrateChan now2 now2'] s
    = Continue s'
    /\ GetTargetBitrate (codec s') = r1
    /\ lastTargetBitrateUpdate (codec s') = now1'
    /\ remainingBurstFrames (codec s') = burstFrameCount (codec s)
    /\ targetBitrateChan (codec s') = waiting.
Proof.
  intros Hq Hacc Hdrop. unfold run.
  unfold iteration at 1. rewrite Hq.
  rewrite update_accepted by (cbn; exact Hacc).
  rewrite (iteration_rate_dropped _ r2 waiting) by (cbn; auto).
  eexists. split; [reflexivity|]. cbn. repeat split.
Qed.

Lemma update_configuration (now now' : Time.Time) (rate : Z) (c : StatisticalCodec) :
  fps (update now now' rate c) = fps c
  /\ tau (update now now' rate c) = tau c
  /\ burstFrameCount (update now now' rate c) = burstFrameCount c
  /\ burstFrameSize (update now now' rate c) = burstFrameSize c
  /\ frameSizeNoiser (update now now' rate c) = frameSizeNoiser c
  /\ frameDurationNoiser (update now now' rate c) = frameDurationNoiser c
  /\ done (update now now' rate c) = done c.
Proof.
  unfold update.
  destruct (Time.Since now (lastTargetBitrateUpdate c) <? tau c);
    repeat split.
Qed.

Lemma iteration_configuration (ev : event) (s s' : loop) :
  iteration ev s = Continue s' \/ iteration ev s = Return s' ->
  fps (codec s') = fps (codec s)
  /\ tau (codec s') = tau (codec s)
  /\ burstFrameCount (codec s') = burstFrameCount (codec s)
  /\ burstFrameSize (codec s') = burstFrameSize (codec s)
  /\ frameSizeNoiser (codec s') = frameSizeNoiser (codec s)
  /\ frameDurationNoiser (codec s') = frameDurationNoiser (codec s)
  /\ done (codec s') = done (codec s).
Proof.
  unfold iteration. destruct ev as [sN dN|now now'|].
  - destruct (nextFrame (codec s) sN dN); intros [H|H]; inversion H; subst.
    cbn. repeat split.
  - destruct (targetBitrateChan (codec s)) as [|rate waiting];
      intros [H|H]; inversion H; subst. cbn [codec].
    exact (update_configuration now now' rate
             (set_targetBitrateChan waiting (codec s))).
  - destruct (done (codec s)) eqn:D; intros [H|H]; inversion H; subst.
    repeat split. exact D.
Qed.

(** X4: the loop never writes the configuration: the frame rate, the reaction
    latency, the burst parameters, the noisers and the done channel are
    after every run what they were before it. *)
Theorem run_keeps_configuration (evs : list event) (s s' : loop) :
  run evs s = Continue s' \/ run evs s = Return s' ->
  fps (codec s') = fps (codec s)
  /\ tau (codec s') = tau (codec s)
  /\ burstFrameCount (codec s') = burstFrameCount (codec s)
  /\ burstFrameSize (codec s') = burstFrameSize (codec s)
  /\ frameSizeNoiser (codec s') = frameSizeNoiser (codec s)
  /\ frameDurationNoiser (codec s') = frameDurationNoiser (codec s)
  /\ done (codec s') = done (codec s).
Proof.
  revert s. induction evs as [|ev rest IH]; intros s H.
  - cbn in H. destruct H as [H|H]; inversion H; subst. repeat split.
  - cbn [run] in H. destruct (iteration ev s) as [s1|s1|p|] eqn:E.
    + pose proof (iteration_configuration ev s s1 (or_introl E)) as C1.
      pose proof (IH s1 H) as C2.
      destruct C1 as (?&?&?&?&?&?&?), C2 as (?&?&?&?&?&?&?).
      repeat split; congruence.
    + destruct H as [H|H]; inversion H; subst.
      exact (iteration_configuration ev s s' (or_intror E)).
    + destruct H as [H|H]; discriminate H.
    + destruct H as [H|H]; discriminate H.
Qed.


End RateCase.

(** ** The writer and the timer *)

Section Writer.

Context {arch : F64.Arch}.

Lemma iteration_timer (sizeNoise durationNoise : F64.t) (s s1 : loop) :
  iteration (TimerC sizeNoise durationNoise) s = Continue s1 ->
  exists frame : Frame,
    nextFrame (codec s) sizeNoise durationNoise = Ok frame
    /\ codec s1 = set_writer (writer (codec s) ++ [frame]) (codec s)
    /\ timer s1 = Duration frame.
Proof.
  unfold iteration.
  destruct (nextFrame (codec s) sizeNoise durationNoise) as [frame|p];
    intros H; inversion H; subst.
  exists frame. repeat split.
Qed.

Lemma iteration_rate (now now' : Time.Time) (s s1 : loop) :
  iteration (TargetBitrateChan now now') s = Continue s1 ->
  writer (codec s1) = writer (codec s) /\ timer s1 = timer s.
Proof.
  unfold iteration.
  destruct (targetBitrateChan (codec s)) as [|rate waiting];
    intros H; inversion H; subst. cbn [codec timer].
  unfold update.
  destruct (Time.Since now _ <? _); split; reflexivity.
Qed.

Lemma iteration_done_stops (s s1 : loop) : iteration DoneChan s <> Continue s1.
Proof.
  unfold iteration. destruct (done (codec s)); discriminate.
Qed.

Lemma last_cons_default {A : Type} (l : list A) (x d : A) :
  last (x :: l) d = last l x.
Proof.
  revert x d. induction l as [|y l IH]; intros x d; [reflexivity|].
  change (last (x :: y :: l) d) with (last (y :: l) d).
  rewrite (IH y d), (IH y x). reflexivity.
Qed.

(** X6: every timer case hands exactly one frame to the writer, after the frames
    already written and in the order of generation; the other cases write
    nothing.  The timer is armed for the duration of the last frame written,
    and is left as it was when none was. *)
Theorem run_writes_one_frame_per_timer (evs : list event) (s s' : loop) :
  run evs s = Continue s' ->
  exists frames : list Frame,
    writer (codec s') = writer (codec s) ++ frames
    /\ length frames = length (filter is_timer evs)
    /\ timer s' = last (map Duration frames) (timer s).
Proof.
  revert s. induction evs as [|ev rest IH]; intros s H.
  - cbn in H. inversion H; subst. exists []. rewrite app_nil_r. repeat split.
  - cbn [run] in H. destruct (iteration ev s) as [s1|s1|p|] eqn:E;
      try discriminate H.
    destruct (IH s1 H) as (frames & Hw & Hl & Ht).
    destruct ev as [sN dN|now now'|].
    + destruct (iteration_timer sN dN s s1 E) as (frame & _ & Hc & Htm).
      exists (frame :: frames). rewrite Hw, Hc. cbn [writer set_writer].
      rewrite <- app_assoc. split; [reflexivity|]. split.
      * cbn. now rewrite Hl.
      * cbn [map]. rewrite last_cons_default, Ht, Htm. reflexivity.
    + destruct (iteration_rate now now' s s1 E) as [Hc Htm].
      exists frames. rewrite Hw, Hc, Ht, Htm. repeat split. exact Hl.
    + exfalso. exact (iteration_done_stops s s1 E).
Qed.

(** X7: from a state whose burst counter equals the burst frame count (an update
    has been accepted), every frame that the loop writes afterwards, however
    many, is the burst-start frame: [burstFrameSize] zero bytes and the
    nominal duration.  The codec never emits a burst-continuation or a
    steady-state frame again. *)
Theorem frames_after_update_are_burst_start (evs : list event) (s s' : loop) :
  remainingBurstFrames (codec s) = burstFrameCount (codec s) ->
  0 <= burstFrameSize (codec s) ->
  run evs s = Continue s' ->
  exists frames : list Frame,
    writer (codec s') = writer (codec s) ++ frames
    /\ Forall (fun frame =>
                 Content frame
                 = repeat Byte.x00 (Z.to_nat (burstFrameSize (codec s)))
                 /\ Duration frame = frameDuration (codec s))
              frames.
Proof.
  revert s. induction evs as [|ev rest IH]; intros s Hb Hs H.
  - cbn in H. inversion H; subst. exists []. rewrite app_nil_r.
    split; [reflexivity|constructor].
  - cbn [run] in H. destruct (iteration ev s) as [s1|s1|p|] eqn:E;
      try discriminate H.
    destruct (iteration_configuration ev s s1 (or_introl E))
      as (Hf & _ & Hc & Hsz & _).
    destruct (iteration_remainingBurstFrames ev s s1 (or_introl E)) as [_ Hr].
    assert (Hb1 : remainingBurstFrames (codec s1) = burstFrameCount (codec s1))
      by (destruct Hr; congruence).
    destruct (IH s1 Hb1 ltac:(congruence) H) as (frames & Hw & Hall).
    assert (Hd : frameDuration (codec s1) = frameDuration (codec s))
      by (unfold frameDuration; now rewrite Hf).
    rewrite Hsz, Hd in Hall.
    destruct ev as [sN dN|now now'|].
    + destruct (iteration_timer sN dN s s1 E) as (frame & Hn & Hcs & _).
      rewrite nextFrame_burst_start in Hn by assumption.
      inversion Hn; subst frame.
      exists ({| Content := repeat Byte.x00 (Z.to_nat (burstFrameSize (codec s)));
                 Duration := frameDuration (codec s) |} :: frames).
      rewrite Hw, Hcs. cbn [writer set_writer]. rewrite <- app_assoc.
      split; [reflexivity|]. constructor; [split; reflexivity|exact Hall].
    + destruct (iteration_rate now now' s s1 E) as [Hcs _].
      exists frames. rewrite Hw, Hcs. split; [reflexivity|exact Hall].
    + exfalso. exact (iteration_done_stops s s1 E).
Qed.

(** X19: the burst counter only ever holds its initial value or the burst
    frame count: in a loop started in the steady state (counter 0) it is
    never strictly between 0 and the burst frame count, so the
    burst-continuation branch of [nextFrame] is never taken. *)
Theorem burst_continuation_is_unreachable (evs : list event) (s s' : loop) :
  remainingBurstFrames (codec s) = 0 ->
  run evs s = Continue s' ->
  (remainingBurstFrames (codec s') = 0
   \/ remainingBurstFrames (codec s') = burstFrameCount (codec s'))
  /\ ~ (0 < remainingBurstFrames (codec s') < burstFrameCount (codec s')).
Proof.
  intros H0 H.
  assert (G : remainingBurstFrames (codec s') = 0
              \/ remainingBurstFrames (codec s') = burstFrameCount (codec s'));
    [|split; [exact G|lia]].
  revert s H0 H. induction evs as [|ev rest IH]; intros s H0 H.
  - cbn in H. inversion H; subst. left. exact H0.
  - cbn [run] in H. destruct (iteration ev s) as [s1|s1|p|] eqn:E;
      try discriminate H.
    destruct (iteration_remainingBurstFrames ev s s1 (or_introl E)) as [Hc [Hr|Hr]].
    + apply (IH s1); [congruence|exact H].
    + right.
      assert (Hb1 : remainingBurstFrames (codec s1) = burstFrameCount (codec s1))
        by congruence.
      destruct (remainingBurstFrames_stays rest s1 s' Hb1 (or_introl H)).
      congruence.
Qed.

End Writer.

(** ** Edge cases of the frame generator *)

Section GeneratorEdges.

Context {arch : F64.Arch}.

(** X8: the divisor of line 172 is [8 * fps] in 64-bit arithmetic: outside the
    burst-start branch [nextFrame] panics with an integer division by zero
    for every frame rate that is a multiple of 2^61, not for 0 alone. *)
Theorem nextFrame_panics_when_8fps_wraps_to_zero
  (c : StatisticalCodec) (sizeNoise durationNoise : F64.t) :
  remainingBurstFrames c <> burstFrameCount c ->
  fps c mod 2 ^ 61 = 0 ->
  nextFrame c sizeNoise durationNoise = Panic IntegerDivideByZero.
Proof.
  intros Hb Hm. apply nextFrame_zero_divisor; [assumption|].
  unfold Int64.mul, Int64.wrap.
  apply Z.mod_divide in Hm; [|lia]. destruct Hm as [k Hk]. rewrite Hk.
  replace (8 * (k * 2 ^ 61) + 2 ^ 63) with (2 ^ 63 + k * 2 ^ 64) by lia.
  rewrite Z.mod_add by lia. reflexivity.
Qed.


(** X10: the noisers are consulted in the steady state only: in both burst
    branches the outcome of [nextFrame] is the same for all noise values. *)
Theorem nextFrame_burst_ignores_noise
  (c : StatisticalCodec) (n1 d1 n2 d2 : F64.t) :
  remainingBurstFrames c = burstFrameCount c \/ 0 < remainingBurstFrames c ->
  nextFrame c n1 d1 = nextFrame c n2 d2.
Proof.
  intros H. unfold nextFrame.
  destruct (remainingBurstFrames c =? burstFrameCount c) eqn:E; [reflexivity|].
  destruct H as [H|H]; [apply Z.eqb_neq in E; contradiction|].
  destruct (Int64.div (targetBitrateBps c) (Int64.mul 8 (fps c)));
    [|reflexivity].
  cbn [bind]. destruct (Z.ltb_spec 0 (remainingBurstFrames c)); [reflexivity|lia].
Qed.

Lemma frameDuration_bounds (c : StatisticalCodec) :
  0 < fps c ->
  0 <= frameDuration c <= 1000 * Time.Millisecond
  /\ (1000 < fps c -> frameDuration c = 0).
Proof.
  intros H. rewrite frameDuration_nominal by lia.
  rewrite Z.quot_div_nonneg by lia.
  assert (0 <= 1000 / fps c) by (apply Z.div_pos; lia).
  assert (1000 / fps c <= 1000) by (apply Z.div_le_upper_bound; nia).
  unfold Time.Millisecond. split; [lia|].
  intros Hl. rewrite Z.div_small by lia. reflexivity.
Qed.

(** X11: above 1000 frames per second the nominal interval truncates to
    0 ms; for every positive frame rate it lies between 0 and one second. *)
Theorem frameDuration_range (c : StatisticalCodec) :
  0 < fps c ->
  0 <= frameDuration c <= 1000 * Time.Millisecond
  /\ (1000 < fps c -> frameDuration c = 0).
Proof. apply frameDuration_bounds. Qed.

Lemma round53_nonneg (z : Z) : 0 <= z -> 0 <= F64.round53 z.
Proof.
  intros H. pose proof (round53_sgn z) as S.
  destruct (Z.eq_dec z 0) as [->|N]; [cbv; discriminate|].
  rewrite (Z.sgn_pos z) in S by lia.
  destruct (F64.round53 z); simpl in S; lia.
Qed.

Lemma to_int64_Max_nonpositive (k : Z) (q : Q) :
  0 <= k -> Int64.in_range k -> (q <= 0)%Q ->
  F64.to_int64 (F64.Max (F64.Fin (inject_Z k)) (F64.Fin q)) = k.
Proof.
  intros Hk Hr Hq. unfold F64.Max.
  destruct (Qle_bool (inject_Z k) q) eqn:E.
  - apply Qle_bool_iff in E.
    assert (Hk0 : k = 0).
    { assert (Hle : (inject_Z k <= 0)%Q) by (eapply Qle_trans; eassumption).
      unfold Qle, inject_Z in Hle. simpl in Hle. lia. }
    subst k.
    assert (Hq0 : (q == inject_Z 0)%Q) by (apply Qle_antisym; assumption).
    rewrite to_int64_representable;
      rewrite (trunc_comp _ _ Hq0), trunc_inject_Z; [reflexivity|assumption].
  - rewrite to_int64_representable; rewrite trunc_inject_Z;
      [reflexivity|assumption].
Qed.

(** X12: in the steady state a size-noise value of 1 or more makes the perturbed
    size zero or negative, and the floor gives a frame of exactly 1 byte; a
    duration-noise value of 1 or more gives a duration of exactly 0, so the
    timer is armed to fire at once. *)
Theorem nextFrame_steady_at_the_floors
  (c : StatisticalCodec) (n m : Q) :
  remainingBurstFrames c <> burstFrameCount c ->
  remainingBurstFrames c <= 0 ->
  0 < fps c -> 8 * fps c <= Int64.max_int ->
  0 <= targetBitrateBps c <= Int64.max_int ->
  (1 <= n)%Q -> (1 <= m)%Q ->
  nextFrame c (F64.Fin n) (F64.Fin m)
  = Ok {| Content := [Byte.x00]; Duration := 0 |}.
Proof.
  intros Hb Hr Hfps Hfps8 Ht Hn Hm.
  assert (Hmax : Int64.max_int = 2 ^ 63 - 1) by reflexivity.
  assert (Hmin : Int64.min_int = - 2 ^ 63) by reflexivity.
  assert (H8 : Int64.mul 8 (fps c) = 8 * fps c).
  { apply wrap_in_range. unfold Int64.in_range. lia. }
  rewrite nextFrame_steady by lia.
  rewrite H8, Z.quot_div_nonneg by lia.
  set (b := targetBitrateBps c / (8 * fps c)).
  assert (Hb0 : 0 <= b) by (apply Z.div_pos; lia).
  assert (Hbt : b <= targetBitrateBps c)
    by (apply Z.div_le_upper_bound; nia).
  rewrite (wrap_in_range b) by (unfold Int64.in_range; lia).
  destruct (frameDuration_bounds c Hfps) as [Hd _].
  unfold F64.of_int, F64.sub, F64.mul.
  change (F64.Fin 1) with (F64.Fin (inject_Z 1)).
  change (F64.Fin 0) with (F64.Fin (inject_Z 0)).
  assert (Neg : forall (z : Z) (x : Q),
             0 <= z -> (1 <= x)%Q -> (inject_Z z * (1 - x) <= 0)%Q).
  { intros z x Hz Hx.
    assert (Hz' : (0 <= inject_Z z)%Q)
      by (unfold Qle, inject_Z; simpl; lia).
    assert (Hx' : (1 - x <= 0)%Q) by Lqa.lra.
    setoid_replace (inject_Z z * (1 - x))%Q
      with (- (inject_Z z * (x - 1)))%Q by ring.
    assert (0 <= inject_Z z * (x - 1))%Q by (apply Qmult_le_0_compat; Lqa.lra).
    Lqa.lra. }
  rewrite !to_int64_Max_nonpositive;
    try (unfold Int64.in_range; lia);
    try (apply Neg; [|assumption]).
  - reflexivity.
  - apply round53_nonneg. lia.
  - apply round53_nonneg. lia.
Qed.

End GeneratorEdges.

(** ** More on the Laplace sampler *)



(** X15: a negative scale is not rejected: it gives the sample of the opposite
    scale with the two draws exchanged. *)
Theorem noise_negated_scale (s : Q) (u1 u2 : R) :
  Laplace.noise (mkLaplaceNoise (- s)) u1 u2
  = Laplace.noise (mkLaplaceNoise s) u2 u1.
Proof.
  rewrite !noise_difference. cbn [scale]. rewrite Q2R_opp. ring.
Qed.

(** ** The constructor *)

Lemma apply_opts_fps (ns : list Z) (a : Z) (sc : StatisticalCodec) :
  apply_opts (map WithFramesPerSecond (a :: ns)) sc
  = inr (set_fps (last ns a) sc).
Proof.
  revert a sc. induction ns as [|b ns IH]; intros a sc; [reflexivity|].
  change (apply_opts (map WithFramesPerSecond (a :: b :: ns)) sc)
    with (apply_opts (map WithFramesPerSecond (b :: ns)) (set_fps a sc)).
  rewrite (IH b). rewrite last_cons_default. reflexivity.
Qed.

(** X16: the options are applied in the order given and each writes its field:
    with several frame rates the last one stands, and every other field is
    the default. *)
Theorem NewStatisticalEncoder_last_option_stands
  (w : list Frame) (a : Z) (ns : list Z) :
  NewStatisticalEncoder w (map WithFramesPerSecond (a :: ns))
  = inr (set_fps (last ns a) (initial w)).
Proof. apply apply_opts_fps. Qed.

(** X17: an option that returns an error ends the construction: the constructor
    returns this error and no codec, and the options after it are not
    applied. *)
Theorem NewStatisticalEncoder_first_error
  (w : list Frame) (ns : list Z) (err : error)
  (rest : list StatisticalCodecOption) :
  NewStatisticalEncoder w
    (map WithFramesPerSecond ns ++ (fun _ => inl err) :: rest)
  = inl err.
Proof.
  unfold NewStatisticalEncoder. generalize (initial w).
  induction ns as [|a ns IH]; intros sc; [reflexivity|].
  cbn. apply IH.
Qed.

(** ** The nominal interval in binary64 *)

Lemma agrees_from_spec (k : nat) (n m : Z) :
  Binary64.agrees_from k n = true ->
  n <= m < n + Z.of_nat k ->
  Binary64.agrees m = true.
Proof.
  revert n. induction k as [|k IH]; intros n H Hm; [lia|].
  cbn [Binary64.agrees_from] in H. apply andb_true_iff in H.
  destruct H as [H1 H2].
  destruct (Z.eq_dec m n) as [->|N]; [exact H1|].
  apply (IH (n + 1)); [exact H2|lia].
Qed.

Lemma agrees_upto_20000 :
  Binary64.agrees_from (Z.to_nat 20000) 1 = true.
Proof. vm_compute. reflexivity. Qed.

(** X18: evaluated in IEEE binary64, with the rounding of the division and of the
    product, [(1.0/float64(fps))*1000.0] truncates to the integer quotient
    [1000 / fps] for every frame rate from 1 to 20000 and from -20000 to
    -1: on this range the nominal interval of the exact model is that of the
    floating-point code. *)
Theorem frame_ms_binary64 (n : Z) :
  1 <= n <= 20000 ->
  Binary64.frame_ms n = Some (Z.quot 1000 n)
  /\ Binary64.frame_ms (- n) = Some (Z.quot 1000 (- n)).
Proof.
  intros H.
  pose proof (agrees_from_spec (Z.to_nat 20000) 1 n agrees_upto_20000) as A.
  rewrite Z2Nat.id in A by lia. specialize (A ltac:(lia)).
  unfold Binary64.agrees in A.
  destruct (Binary64.frame_ms n) as [p|]; [|discriminate A].
  destruct (Binary64.frame_ms (- n)) as [q|]; [|discriminate A].
  apply andb_true_iff in A. destruct A as [A1 A2].
  apply Z.eqb_eq in A1, A2. subst. split; reflexivity.
Qed.

Lemma conversion_agrees_from_spec (k : nat) (n m : Z) :
  Binary64.conversion_agrees_from k n = true ->
  n <= m < n + Z.of_nat k ->
  Binary64.conversion_agrees m = true.
Proof.
  revert n. induction k as [|k IH]; intros n H Hm; [lia|].
  cbn [Binary64.conversion_agrees_from] in H. apply andb_true_iff in H.
  destruct H as [H1 H2].
  destruct (Z.eq_dec m n) as [->|N]; [exact H1|].
  apply (IH (n + 1)); [exact H2|lia].
Qed.

Lemma conversion_agrees_near_2_53 :
  Binary64.conversion_agrees_from (Z.to_nat 4001) (2 ^ 53 - 2000) = true.
Proof. vm_compute. reflexivity. Qed.

Lemma conversion_agrees_near_2_63 :
  Binary64.conversion_agrees_from (Z.to_nat 4001) (2 ^ 63 - 4001) = true.
Proof. vm_compute. reflexivity. Qed.

(** X20: the conversion [float64(n)] of binary64 (round to nearest, ties to
    even) is [F64.round53 n], for [n] and [- n], on the 4001 integers
    around 2^53, where the conversion starts to round, and on the 4001
    largest int64 values. *)
Theorem conversion_binary64 (n : Z) :
  2 ^ 53 - 2000 <= n <= 2 ^ 53 + 2000 \/ 2 ^ 63 - 4001 <= n <= 2 ^ 63 - 1 ->
  Binary64.trunc (Binary64.of_int n) = Some (F64.round53 n)
  /\ Binary64.trunc (Binary64.of_int (- n)) = Some (F64.round53 (- n)).
Proof.
  intros H.
  assert (A : Binary64.conversion_agrees n = true).
  { destruct H as [H|H].
    - apply (conversion_agrees_from_spec (Z.to_nat 4001) (2 ^ 53 - 2000));
        [exact conversion_agrees_near_2_53|].
      rewrite Z2Nat.id by lia. lia.
    - apply (conversion_agrees_from_spec (Z.to_nat 4001) (2 ^ 63 - 4001));
        [exact conversion_agrees_near_2_63|].
      rewrite Z2Nat.id by lia. lia. }
  unfold Binary64.conversion_agrees in A.
  destruct (Binary64.trunc (Binary64.of_int n)) as [p|]; [|discriminate A].
  destruct (Binary64.trunc (Binary64.of_int (- n))) as [q|]; [|discriminate A].
  apply andb_true_iff in A. destruct A as [A1 A2].
  apply Z.eqb_eq in A1, A2. subst. split; reflexivity.
Qed.

(** ** Instances *)

Lemma rate_case_drops_within_tau_witness :
  iteration (arch := F64.amd64)
    (TargetBitrateChan 63900000000100000000 63900000000100000001)
    {| codec := set_lastTargetBitrateUpdate 63900000000000000000
                  (set_targetBitrateChan [500000; 600000] (initial []));
       timer := defaultT0 |}
  = Continue
      {| codec := set_targetBitrateChan [600000]
                    (set_lastTargetBitrateUpdate 63900000000000000000
                       (set_targetBitrateChan [500000; 600000] (initial [])));
         timer := defaultT0 |}.
Proof.
  apply (rate_case_drops_within_tau (arch := F64.amd64)
           {| codec := set_lastTargetBitrateUpdate 63900000000000000000
                         (set_targetBitrateChan [500000; 600000] (initial []));
              timer := defaultT0 |}
           500000 [600000] 63900000000100000000 63900000000100000001).
  - reflexivity.
  - reflexivity.
Defined.

Lemma first_rate_is_accepted_witness :
  exists s' : loop,
    iteration (arch := F64.amd64)
      (TargetBitrateChan 63900000000000000000 63900000000000000001)
      {| codec := set_targetBitrateChan [7] (initial []); timer := defaultT0 |}
    = Continue s'
    /\ GetTargetBitrate (codec s') = 7
    /\ lastTargetBitrateUpdate (codec s') = 63900000000000000001
    /\ remainingBurstFrames (codec s') = 8
    /\ targetBitrateChan (codec s') = []
    /\ writer (codec s') = []
    /\ timer s' = defaultT0.
Proof.
  apply (first_rate_is_accepted (arch := F64.amd64)
           {| codec := set_targetBitrateChan [7] (initial []);
              timer := defaultT0 |}
           7 [] 63900000000000000000 63900000000000000001).
  - reflexivity.
  - reflexivity.
  - discriminate.
  - discriminate.
Defined.

Lemma second_rate_within_tau_is_dropped_witness :
  exists s' : loop,
    run (arch := F64.amd64)
      [TargetBitrateChan 63900000000000000000 63900000000000000001;
       TargetBitrateChan 63900000000100000000 63900000000100000001]
      {| codec := set_targetBitrateChan [500000; 600000] (initial []);
         timer := defaultT0 |}
    = Continue s'
    /\ GetTargetBitrate (codec s') = 500000
    /\ lastTargetBitrateUpdate (codec s') = 63900000000000000001
    /\ remainingBurstFrames (codec s') = 8
    /\ targetBitrateChan (codec s') = [].
Proof.
  apply (second_rate_within_tau_is_dropped (arch := F64.amd64)
           {| codec := set_targetBitrateChan [500000; 600000] (initial []);
              timer := defaultT0 |}
           500000 600000 []
           63900000000000000000 63900000000000000001
           63900000000100000000 63900000000100000001).
  - reflexivity.
  - discriminate.
  - reflexivity.
Defined.

Lemma run_keeps_configuration_witness :
  fps (codec (state_of (Start (arch := F64.amd64) offered_codec short_run)
                {| codec := offered_codec; timer := 0 |}))
  = fps offered_codec
  /\ tau (codec (state_of (Start (arch := F64.amd64) offered_codec short_run)
                   {| codec := offered_codec; timer := 0 |}))
     = tau offered_codec
  /\ burstFrameCount
       (codec (state_of (Start (arch := F64.amd64) offered_codec short_run)
                 {| codec := offered_codec; timer := 0 |}))
     = burstFrameCount offered_codec
  /\ burstFrameSize
       (codec (state_of (Start (arch := F64.amd64) offered_codec short_run)
                 {| codec := offered_codec; timer := 0 |}))
     = burstFrameSize offered_codec
  /\ frameSizeNoiser
       (codec (state_of (Start (arch := F64.amd64) offered_codec short_run)
                 {| codec := offered_codec; timer := 0 |}))
     = frameSizeNoiser offered_codec
  /\ frameDurationNoiser
       (codec (state_of (Start (arch := F64.amd64) offered_codec short_run)
                 {| codec := offered_codec; timer := 0 |}))
     = frameDurationNoiser offered_codec
  /\ done
       (codec (state_of (Start (arch := F64.amd64) offered_codec short_run)
                 {| codec := offered_codec; timer := 0 |}))
     = done offered_codec.
Proof.
  apply (run_keeps_configuration (arch := F64.amd64) short_run
           {| codec := offered_codec; timer := t0 offered_codec |}
           (state_of (Start (arch := F64.amd64) offered_codec short_run)
              {| codec := offered_codec; timer := 0 |})).
  left. vm_compute. reflexivity.
Defined.


Lemma run_writes_one_frame_per_timer_witness :
  exists frames : list Frame,
    writer (codec (state_of (Start (arch := F64.amd64) offered_codec short_run)
                     {| codec := offered_codec; timer := 0 |}))
    = writer offered_codec ++ frames
    /\ length frames = length (filter is_timer short_run)
    /\ timer (state_of (Start (arch := F64.amd64) offered_codec short_run)
                {| codec := offered_codec; timer := 0 |})
       = last (map Duration frames) (t0 offered_codec).
Proof.
  apply (run_writes_one_frame_per_timer (arch := F64.amd64) short_run
           {| codec := offered_codec; timer := t0 offered_codec |}
           (state_of (Start (arch := F64.amd64) offered_codec short_run)
              {| codec := offered_codec; timer := 0 |})).
  vm_compute. reflexivity.
Defined.

Lemma frames_after_update_are_burst_start_witness :
  exists frames : list Frame,
    writer (codec (state_of
                     (run (arch := F64.amd64) short_run
                        {| codec := set_remainingBurstFrames 8 offered_codec;
                           timer := 0 |})
                     {| codec := offered_codec; timer := 0 |}))
    = writer (set_remainingBurstFrames 8 offered_codec) ++ frames
    /\ Forall (fun frame =>
                 Content frame = repeat Byte.x00 (Z.to_nat 13500)
                 /\ Duration frame
                    = frameDuration (arch := F64.amd64)
                        (set_remainingBurstFrames 8 offered_codec))
              frames.
Proof.
  apply (frames_after_update_are_burst_start (arch := F64.amd64) short_run
           {| codec := set_remainingBurstFrames 8 offered_codec; timer := 0 |}
           (state_of
              (run (arch := F64.amd64) short_run
                 {| codec := set_remainingBurstFrames 8 offered_codec;
                    timer := 0 |})
              {| codec := offered_codec; timer := 0 |})).
  - reflexivity.
  - discriminate.
  - vm_compute. reflexivity.
Defined.

Lemma nextFrame_panics_when_8fps_wraps_to_zero_witness :
  nextFrame (arch := F64.amd64) (set_fps (2 ^ 61) (initial []))
    (F64.Fin 0) (F64.Fin 0)
  = Panic IntegerDivideByZero.
Proof.
  apply (nextFrame_panics_when_8fps_wraps_to_zero (arch := F64.amd64)
           (set_fps (2 ^ 61) (initial [])) (F64.Fin 0) (F64.Fin 0)).
  - discriminate.
  - reflexivity.
Defined.


Lemma nextFrame_burst_ignores_noise_witness :
  nextFrame (arch := F64.amd64) (set_remainingBurstFrames 3 (initial []))
    (F64.Fin (1 # 2)) F64.NaN
  = nextFrame (arch := F64.amd64) (set_remainingBurstFrames 3 (initial []))
      F64.PInf (F64.Fin 7).
Proof.
  apply (nextFrame_burst_ignores_noise (arch := F64.amd64)
           (set_remainingBurstFrames 3 (initial []))
           (F64.Fin (1 # 2)) F64.NaN F64.PInf (F64.Fin 7)).
  right. reflexivity.
Defined.

Lemma frameDuration_range_witness :
  0 <= frameDuration (arch := F64.amd64) (set_fps 1001 (initial []))
    <= 1000 * Time.Millisecond
  /\ (1000 < fps (set_fps 1001 (initial [])) ->
      frameDuration (arch := F64.amd64) (set_fps 1001 (initial [])) = 0).
Proof.
  apply (frameDuration_range (arch := F64.amd64) (set_fps 1001 (initial []))).
  reflexivity.
Defined.

Lemma nextFrame_steady_at_the_floors_witness :
  nextFrame (arch := F64.amd64) (initial []) (F64.Fin 1) (F64.Fin (3 # 2))
  = Ok {| Content := [Byte.x00]; Duration := 0 |}.
Proof.
  apply (nextFrame_steady_at_the_floors (arch := F64.amd64) (initial [])
           1 (3 # 2)).
  - discriminate.
  - discriminate.
  - reflexivity.
  - discriminate.
  - split; discriminate.
  - discriminate.
  - discriminate.
Defined.


Lemma frame_ms_binary64_witness :
  Binary64.frame_ms 30 = Some (Z.quot 1000 30)
  /\ Binary64.frame_ms (- 30) = Some (Z.quot 1000 (- 30)).
Proof.
  apply (frame_ms_binary64 30). split; discriminate.
Defined.

Lemma burst_continuation_is_unreachable_witness :
  (remainingBurstFrames
     (codec (state_of (Start (arch := F64.amd64) offered_codec short_run)
               {| codec := offered_codec; timer := 0 |})) = 0
   \/ remainingBurstFrames
        (codec (state_of (Start (arch := F64.amd64) offered_codec short_run)
                  {| codec := offered_codec; timer := 0 |}))
      = burstFrameCount
          (codec (state_of (Start (arch := F64.amd64) offered_codec short_run)
                    {| codec := offered_codec; timer := 0 |})))
  /\ ~ (0 < remainingBurstFrames
             (codec (state_of
                       (Start (arch := F64.amd64) offered_codec short_run)
                       {| codec := offered_codec; timer := 0 |}))
         < burstFrameCount
             (codec (state_of
                       (Start (arch := F64.amd64) offered_codec short_run)
                       {| codec := offered_codec; timer := 0 |}))).
Proof.
  apply (burst_continuation_is_unreachable (arch := F64.amd64) short_run
           {| codec := offered_codec; timer := t0 offered_codec |}
           (state_of (Start (arch := F64.amd64) offered_codec short_run)
              {| codec := offered_codec; timer := 0 |})).
  - reflexivity.
  - vm_compute. reflexivity.
Defined.

Lemma conversion_binary64_witness :
  Binary64.trunc (Binary64.of_int (2 ^ 53 + 1)) = Some (F64.round53 (2 ^ 53 + 1))
  /\ Binary64.trunc (Binary64.of_int (- (2 ^ 53 + 1)))
     = Some (F64.round53 (- (2 ^ 53 + 1))).
Proof.
  apply (conversion_binary64 (2 ^ 53 + 1)). left. split; discriminate.
Defined.
